(** * Email validation at the ORM layer: a shallow embedding

    The development follows the three Python files of the repository:

    - [src/bin/validations.py]  (module [Validations]): the standalone entity,
      its validation hook and the add / commit / rollback script;
    - [src/server/models.py]    (module [Models]): the same entity declared
      against the web framework's ORM integration;
    - [src/server/seed.py]      (module [Seed]): the seeding script.

    Python values are a small tagged union, exceptions are an inductive type,
    and code that touches the session or the database is written in a state
    and exception monad over an explicit [world].  *)

From Stdlib Require Import ZArith String Ascii List Lia.
From stdpp Require Import base strings list gmap.

Open Scope string_scope.
Open Scope Z_scope.
Open Scope list_scope.

(** ** Python values and exceptions *)

(** The scalar values a caller may assign to a column: [None], integers and
    strings; containers are outside the model.  A Python [str] is a
    sequence of code points; here it is a [string] of bytes (UTF-8).  The
    needle of interest, '@', is a single ASCII byte that never occurs inside
    a multi-byte UTF-8 sequence, so containment of '@' is the same on both
    views. *)
Inductive pyval : Type :=
  | PyNone
  | PyInt (z : Z)
  | PyStr (s : string).

Inductive exn : Type :=
  | ValueError (msg : string)
  | TypeError (msg : string)
  | IntegrityError (msg : string)
  | OperationalError (msg : string)
  | PendingRollbackError.

Inductive result (A : Type) : Type :=
  | Return (a : A)
  | Raise (e : exn).
Arguments Return {A} a.
Arguments Raise {A} e.

Definition is_Return {A} (r : result A) : bool :=
  match r with Return _ => true | Raise _ => false end.

Definition is_TypeError (e : exn) : bool :=
  match e with TypeError _ => true | _ => false end.

Definition is_IntegrityError (e : exn) : bool :=
  match e with IntegrityError _ => true | _ => false end.

(** ** The [in] operator *)

(** [sub in s] on two Python strings: [sub] occurs in [s] as a contiguous
    substring. *)
Fixpoint contains (sub s : string) : bool :=
  if String.prefix sub s then true
  else match s with
       | EmptyString => false
       | String _ s' => contains sub s'
       end.

(** [x in c]: dispatches on the type of the container [c].  [None] and
    integers have no [__contains__] and are not iterable. *)
Definition py_in (x c : pyval) : result bool :=
  match c with
  | PyStr s =>
      match x with
      | PyStr sub => Return (contains sub s)
      | _ => Raise (TypeError "'in <string>' requires string as left operand")
      end
  | PyNone => Raise (TypeError "argument of type 'NoneType' is not iterable")
  | PyInt _ => Raise (TypeError "argument of type 'int' is not iterable")
  end.

(** ** The entity *)

(** An in-memory instance: the three mapped columns.  A column that was never
    assigned reads as [None]; [id] is [None] until the storage layer assigns
    it. *)
Record EmailAddress : Type := mkEmailAddress {
  id : option Z;
  email : pyval;
  backup_email : pyval;
}.

(** The two attributes that carry a [String] column. *)
Inductive attr : Type := a_email | a_backup_email.

Definition attr_name (a : attr) : string :=
  match a with
  | a_email => "email"
  | a_backup_email => "backup_email"
  end.

Definition getattr (e : EmailAddress) (a : attr) : pyval :=
  match a with
  | a_email => email e
  | a_backup_email => backup_email e
  end.

Definition set_column (a : attr) (v : pyval) (e : EmailAddress) : EmailAddress :=
  match a with
  | a_email => {| id := id e; email := v; backup_email := backup_email e |}
  | a_backup_email => {| id := id e; email := email e; backup_email := v |}
  end.

(** What the class statement declares: the table name, the attribute names
    listed in [@validates(...)] and the decorated method. *)
Record mapper : Type := mkMapper {
  tablename : string;
  validates : list string;
  validator : EmailAddress -> string -> pyval -> result pyval;
}.

(** Modelled from the spec: the interception of attribute assignment by the
    ORM, which is library code outside the repository ("a function invoked
    automatically when a specific field is assigned, which may reject the
    new value").  For [e.a = v] with [a] listed in [@validates], the hook
    runs first and the column receives what the hook returns; when the hook
    raises, the exception propagates and nothing is stored. *)
Definition setattr (cls : mapper) (e : EmailAddress) (a : attr) (v : pyval)
  : result EmailAddress :=
  if bool_decide (attr_name a ∈ validates cls) then
    match validator cls e (attr_name a) v with
    | Return v' => Return (set_column a v' e)
    | Raise x => Raise x
    end
  else Return (set_column a v e).

(** Keyword arguments of the constructor, in call order.  [id] is typed by
    its [Integer] column. *)
Inductive kwarg : Type :=
  | kw_id (i : Z)
  | kw_email (v : pyval)
  | kw_backup_email (v : pyval).

Definition set_kwarg (cls : mapper) (self : EmailAddress) (kw : kwarg)
  : result EmailAddress :=
  match kw with
  | kw_id i => Return {| id := Some i; email := email self;
                         backup_email := backup_email self |}
  | kw_email v => setattr cls self a_email v
  | kw_backup_email v => setattr cls self a_backup_email v
  end.

(** Modelled from the spec: the constructor that the declarative base gives
    the class, which is library code outside the repository: each keyword
    argument is assigned in turn ("validated synchronously on assignment"),
    so the first hook that raises aborts the construction. *)
Fixpoint init (cls : mapper) (self : EmailAddress) (kwargs : list kwarg)
  : result EmailAddress :=
  match kwargs with
  | [] => Return self
  | kw :: rest =>
      match set_kwarg cls self kw with
      | Return self' => init cls self' rest
      | Raise x => Raise x
      end
  end.

Definition blank : EmailAddress :=
  {| id := None; email := PyNone; backup_email := PyNone |}.

(** The call [EmailAddress(k1=v1, ..., kn=vn)]. *)
Definition new (cls : mapper) (kwargs : list kwarg) : result EmailAddress :=
  init cls blank kwargs.

(** ** src/bin/validations.py: the class *)

Module Validations.

Definition validate_email (self : EmailAddress) (key : string) (address : pyval)
  : result pyval :=
  match py_in (PyStr "@") address with
  | Raise x => Raise x
  | Return found =>
      if negb found then Raise (ValueError "failed simple email validation")
      else Return address
  end.

Definition EmailAddress_class : mapper :=
  {| tablename := "address";
     validates := ["email"; "backup_email"];
     validator := validate_email |}.

End Validations.

(** ** src/server/models.py *)

Module Models.

Definition validate_email (self : EmailAddress) (key : string) (address : pyval)
  : result pyval :=
  match py_in (PyStr "@") address with
  | Raise x => Raise x
  | Return found =>
      if negb found then Raise (ValueError "Failed simple email validation")
      else Return address
  end.

Definition EmailAddress_class : mapper :=
  {| tablename := "emailaddress";
     validates := ["email"; "backup_email"];
     validator := validate_email |}.

End Models.

(** ** The session and the storage layer *)

(** A stored row: the primary key is always present. *)
Record row : Type := mkRow {
  row_id : Z;
  row_email : pyval;
  row_backup_email : pyval;
}.

(** Calls made on the session and the engine, oldest first.  The log is ghost
    state: no operation reads it. *)
Inductive call : Type :=
  | CallCreateAll
  | CallAdd
  | CallAddAll (n : nat)
  | CallDelete
  | CallCommit
  | CallRollback.

(** Everything a script can observe or change.  Tables are keyed by name.
    [committed] is the durable content of the database file, [working] is
    what the session's open transaction sees, [pending] is the unit of work
    (objects staged by [add] and not yet flushed), [failed] records that a
    flush failed and the transaction has to be rolled back before the session
    is used again.  Objects are staged by value: no script assigns to an
    object after staging it. *)
Record world : Type := mkWorld {
  committed : gmap string (list row);
  working : gmap string (list row);
  pending : list EmailAddress;
  failed : bool;
  stdout : list string;
  log : list call;
}.

(** A process that has just opened a session on the database file [db]. *)
Definition fresh (db : gmap string (list row)) : world :=
  {| committed := db; working := db; pending := []; failed := false;
     stdout := []; log := [] |}.

(** *** The state and exception monad *)

Definition M (A : Type) : Type := world -> result A * world.

Definition ret {A} (a : A) : M A := fun w => (Return a, w).

Definition raise {A} (x : exn) : M A := fun w => (Raise x, w).

Definition bind {A B} (m : M A) (k : A -> M B) : M B :=
  fun w =>
    match m w with
    | (Return a, w') => k a w'
    | (Raise x, w') => (Raise x, w')
    end.

(** A pure computation that may raise. *)
Definition lift {A} (r : result A) : M A := fun w => (r, w).

Declare Scope prog_scope.
Delimit Scope prog_scope with prog.
Bind Scope prog_scope with M.
Notation "x <- m ;; k" := (bind m (fun x => k))
  (at level 100, m at next level, right associativity) : prog_scope.
Notation "m ;; k" := (bind m (fun _ => k))
  (at level 100, right associativity) : prog_scope.

(** [try: body except E as e: handler], where [handles] tells which
    exceptions the [except] clause names. *)
Definition try_except {A} (body : M A) (handles : exn -> bool) (handler : exn -> M A)
  : M A :=
  fun w =>
    match body w with
    | (Return a, w') => (Return a, w')
    | (Raise x, w') => if handles x then handler x w' else (Raise x, w')
    end.

Definition print (msg : string) : M unit :=
  fun w =>
    (Return tt,
     {| committed := committed w; working := working w; pending := pending w;
        failed := failed w; stdout := stdout w ++ [msg]; log := log w |}).


(** *** Storage *)

(** Modelled from the spec: the storage engine's key assignment, which is not
    part of the repository ([id] is "assigned by storage on insert").  The
    fresh key is one more than the largest key in use, starting at 1. *)
Definition next_id (rows : list row) : Z :=
  1 + foldr (fun r m => Z.max (row_id r) m) 0 rows.

Definition has_id (i : Z) (rows : list row) : bool :=
  existsb (fun r => row_id r =? i) rows.

(** Modelled from the spec: the storage engine's INSERT, which is not part of
    the repository.  The only constraint the schema declares is the primary
    key on [id]: a row whose explicit key is already in use is rejected with
    an integrity violation; a row without a key receives a fresh one. *)
Definition insert_row (e : EmailAddress) (rows : list row) : result (list row) :=
  match id e with
  | None => Return (rows ++ [mkRow (next_id rows) (email e) (backup_email e)])
  | Some i =>
      if has_id i rows then Raise (IntegrityError "UNIQUE constraint failed")
      else Return (rows ++ [mkRow i (email e) (backup_email e)])
  end.

Fixpoint insert_rows (es : list EmailAddress) (rows : list row) : result (list row) :=
  match es with
  | [] => Return rows
  | e :: es' =>
      match insert_row e rows with
      | Return rows' => insert_rows es' rows'
      | Raise x => Raise x
      end
  end.

(** Modelled from the spec: the flush of the unit of work into the table of
    the mapped class, which is library code outside the repository.  Staged
    objects are inserted in the order they were added. *)
Definition flush (cls : mapper) (es : list EmailAddress) (db : gmap string (list row))
  : result (gmap string (list row)) :=
  match es with
  | [] => Return db
  | _ =>
      match db !! tablename cls with
      | None => Raise (OperationalError "no such table")
      | Some rows =>
          match insert_rows es rows with
          | Return rows' => Return (<[tablename cls := rows']> db)
          | Raise x => Raise x
          end
      end
  end.

Definition create_table (t : string) (db : gmap string (list row))
  : gmap string (list row) :=
  match db !! t with
  | Some _ => db
  | None => <[t := []]> db
  end.

(** Modelled from the spec: [metadata.create_all(engine)], which is library
    code outside the repository: "creating all tables when they already exist
    is a no-op".  [metadata] lists the tables declared on the base class.
    The statement runs on the engine, outside the session's transaction. *)
Definition create_all (metadata : list string) : M unit :=
  fun w =>
    (Return tt,
     {| committed := foldr create_table (committed w) metadata;
        working := foldr create_table (working w) metadata;
        pending := pending w; failed := failed w; stdout := stdout w;
        log := log w ++ [CallCreateAll] |}).

(** *** Session operations

    The session serves one mapped class, which the operations that reach the
    table take as [cls]. *)

(** Modelled from the spec: [session.add(entity)] ("stage one"), library code
    outside the repository. *)
Definition add (e : EmailAddress) : M unit :=
  fun w =>
    (Return tt,
     {| committed := committed w; working := working w;
        pending := pending w ++ [e]; failed := failed w; stdout := stdout w;
        log := log w ++ [CallAdd] |}).

(** Modelled from the spec: [session.add_all(entities)] ("stage many"),
    library code outside the repository. *)
Definition add_all (es : list EmailAddress) : M unit :=
  fun w =>
    (Return tt,
     {| committed := committed w; working := working w;
        pending := pending w ++ es; failed := failed w; stdout := stdout w;
        log := log w ++ [CallAddAll (length es)] |}).

(** Modelled from the spec: [session.commit()], library code outside the
    repository: "flush staged entities to durable storage, assigning
    surrogate keys"; it "fails with an IntegrityViolation when a
    storage-level constraint is violated".  A failed flush undoes the
    transaction and leaves the session unusable until [rollback]. *)
Definition commit (cls : mapper) : M unit :=
  fun w =>
    if failed w then
      (Raise PendingRollbackError,
       {| committed := committed w; working := working w; pending := pending w;
          failed := failed w; stdout := stdout w; log := log w ++ [CallCommit] |})
    else
      match flush cls (pending w) (working w) with
      | Return db =>
          (Return tt,
           {| committed := db; working := db; pending := []; failed := false;
              stdout := stdout w; log := log w ++ [CallCommit] |})
      | Raise x =>
          (Raise x,
           {| committed := committed w; working := committed w;
              pending := pending w; failed := true; stdout := stdout w;
              log := log w ++ [CallCommit] |})
      end.

(** Modelled from the spec: [session.rollback()], library code outside the
    repository: "discard staged changes and the failed transaction". *)
Definition rollback : M unit :=
  fun w =>
    (Return tt,
     {| committed := committed w; working := committed w; pending := [];
        failed := false; stdout := stdout w; log := log w ++ [CallRollback] |}).

(** Modelled from the spec: [query().delete()], library code outside the
    repository: "bulk-delete all rows of the entity's table, executed
    immediately against storage, not staged".  Returns the number of rows
    matched. *)
Definition query_delete (cls : mapper) : M nat :=
  fun w =>
    let w' :=
      {| committed := committed w; working := working w; pending := pending w;
         failed := failed w; stdout := stdout w; log := log w ++ [CallDelete] |} in
    if failed w then (Raise PendingRollbackError, w')
    else
      match working w !! tablename cls with
      | None => (Raise (OperationalError "no such table"), w')
      | Some rows =>
          (Return (length rows),
           {| committed := committed w;
              working := <[tablename cls := []]> (working w);
              pending := pending w; failed := failed w; stdout := stdout w;
              log := log w ++ [CallDelete] |})
      end.

Definition of_row (r : row) : EmailAddress :=
  {| id := Some (row_id r); email := row_email r;
     backup_email := row_backup_email r |}.

(** Modelled from the spec: [query().all()], library code outside the
    repository: the entities of the table as the session's transaction sees
    them ("retrievable afterward"). *)
Definition query_all (cls : mapper) : M (list EmailAddress) :=
  fun w =>
    if failed w then (Raise PendingRollbackError, w)
    else
      match working w !! tablename cls with
      | None => (Raise (OperationalError "no such table"), w)
      | Some rows => (Return (of_row <$> rows), w)
      end.

(** [for x in xs: body], with the variables the loop assigns as [s]. *)
Fixpoint for_each {A S} (xs : list A) (body : A -> S -> M S) (s : S) : M S :=
  match xs with
  | [] => ret s
  | x :: xs' => (s' <- body x s ;; for_each xs' body s')%prog
  end.

Definition range (n : nat) : list nat := seq 0 n.

(** ** src/bin/validations.py: the script *)

Module ValidationsScript.
Import Validations.

Definition metadata : list string := [tablename EmailAddress_class].

(** Lines 36-40: the [try] / [except IntegrityError] block. *)
Definition guarded_commit : M unit :=
  try_except (commit EmailAddress_class) is_IntegrityError
    (fun e => print "Integrity violation blocked!" ;; rollback)%prog.

(** Lines 33-40, with the constructor's keyword arguments as a parameter. *)
Definition register (kwargs : list kwarg) : M unit :=
  (email <- lift (new EmailAddress_class kwargs) ;;
   add email ;;
   guarded_commit)%prog.

(** Lines 31-40. *)
Definition main : M unit :=
  (create_all metadata ;;
   register [kw_email (PyStr "firstname@student.com");
             kw_backup_email (PyStr "firstnameBackup@student.com")])%prog.

End ValidationsScript.

(** ** src/server/seed.py *)

Module Seed.
Import Models.

(** Lines 18-21: the list [emails] and the loop that fills it. *)
Definition emails_loop : M (list EmailAddress) :=
  for_each (range 25)
    (fun n emails =>
       em <- lift (new EmailAddress_class
                     [kw_email (PyStr "email@email.com");
                      kw_backup_email (PyStr "email@email.com")]) ;;
       ret (emails ++ [em]))%prog
    [].

(** The body of [with app.app_context():], lines 16-26.  The application
    context gives access to the shared session and is not modelled further. *)
Definition main : M unit :=
  (query_delete EmailAddress_class ;;
   emails <- emails_loop ;;
   add_all emails ;;
   commit EmailAddress_class)%prog.

End Seed.

(** ** Specification vocabulary *)

(** [sub] occurs in [s]: [s] splits around a copy of [sub]. *)
Definition occurs (sub s : string) : Prop :=
  exists pre post : string, s = pre +:+ sub +:+ post.

Fixpoint count_char (c : ascii) (s : string) : nat :=
  match s with
  | EmptyString => 0%nat
  | String c' s' => ((if Ascii.eqb c c' then 1 else 0) + count_char c s')%nat
  end.

(** A value that is a string with an '@' in it. *)
Definition has_at (v : pyval) : Prop :=
  exists s : string, v = PyStr s /\ occurs "@" s.

(** ASCII lower-casing, to compare messages up to capitalisation. *)
Definition lower_ascii (c : ascii) : ascii :=
  let n := nat_of_ascii c in
  if ((65 <=? n) && (n <=? 90))%nat then ascii_of_nat (n + 32) else c.

Fixpoint lower (s : string) : string :=
  match s with
  | EmptyString => EmptyString
  | String c s' => String (lower_ascii c) (lower s')
  end.

(** Two outcomes of a hook that agree up to the capitalisation of the
    message of a value error. *)
Definition same_outcome (r1 r2 : result pyval) : Prop :=
  match r1, r2 with
  | Return v1, Return v2 => v1 = v2
  | Raise (ValueError m1), Raise (ValueError m2) => lower m1 = lower m2
  | Raise (TypeError m1), Raise (TypeError m2) => m1 = m2
  | _, _ => False
  end.

(** A mapped class whose validated attributes are [email] and
    [backup_email] and whose hook is the '@' test with message [msg]. *)
Definition simple_email_class (cls : mapper) (msg : string) : Prop :=
  validates cls = ["email"; "backup_email"] /\
  forall self key address,
    validator cls self key address =
    match py_in (PyStr "@") address with
    | Raise x => Raise x
    | Return found => if negb found then Raise (ValueError msg) else Return address
    end.

(** The constructor call passes the string [s] for one of the validated
    attributes. *)
Definition assigns (s : string) (kwargs : list kwarg) : Prop :=
  In (kw_email (PyStr s)) kwargs \/ In (kw_backup_email (PyStr s)) kwargs.

(** Every validated keyword argument is a string. *)
Definition str_kwarg (kw : kwarg) : bool :=
  match kw with
  | kw_id _ => true
  | kw_email (PyStr _) => true
  | kw_backup_email (PyStr _) => true
  | _ => false
  end.

(** A column that is unassigned, or holds a string with an '@'. *)
Definition field_ok (v : pyval) : Prop := v = PyNone \/ has_at v.

Definition entity_ok (e : EmailAddress) : Prop :=
  field_ok (email e) /\ field_ok (backup_email e).

Definition row_ok (r : row) : Prop :=
  field_ok (row_email r) /\ field_ok (row_backup_email r).

Definition db_ok (db : gmap string (list row)) : Prop :=
  forall t rows, db !! t = Some rows -> Forall row_ok rows.

Definition world_ok (w : world) : Prop :=
  db_ok (committed w) /\ db_ok (working w) /\ Forall entity_ok (pending w).

(** The objects a caller can hold: built by the constructor, then mutated by
    attribute assignment. *)
Inductive instance (cls : mapper) : EmailAddress -> Prop :=
  | instance_new kwargs e :
      new cls kwargs = Return e -> instance cls e
  | instance_setattr e a v e' :
      instance cls e -> setattr cls e a v = Return e' -> instance cls e'.

(** One call on the session or the engine, made with objects of the class. *)
Inductive step (cls : mapper) : world -> world -> Prop :=
  | step_create_all md w : step cls w (create_all md w).2
  | step_add e w : instance cls e -> step cls w (add e w).2
  | step_add_all es w : Forall (instance cls) es -> step cls w (add_all es w).2
  | step_commit w : step cls w (commit cls w).2
  | step_rollback w : step cls w (rollback w).2
  | step_delete w : step cls w (query_delete cls w).2
  | step_print msg w : step cls w (print msg w).2.

(** The invariant read strictly: in every state reachable from an empty
    database file, both string columns of every persisted row contain '@'. *)
Definition strict_invariant (cls : mapper) : Prop :=
  forall w rows r,
    rtc (step cls) (fresh ∅) w ->
    committed w !! tablename cls = Some rows -> r ∈ rows ->
    has_at (row_email r) /\ has_at (row_backup_email r).

(** The round-trip scenario: lines 33-40 of the standalone script with the
    two addresses of the scenario, followed by a query. *)
Definition round_trip : M (list EmailAddress) :=
  (ValidationsScript.register
     [kw_email (PyStr "a@b.com"); kw_backup_email (PyStr "c@d.com")] ;;
   query_all Validations.EmailAddress_class)%prog.

(** The rows the seed script leaves behind. *)
Definition seeded : list row :=
  (fun i : nat => mkRow (Z.of_nat i) (PyStr "email@email.com") (PyStr "email@email.com"))
    <$> seq 1 25.

(** The state reached from an empty database file by creating the table,
    then constructing, staging and committing an object for which only
    [email] was given. *)
Definition email_only : EmailAddress :=
  {| id := None; email := PyStr "a@b.com"; backup_email := PyNone |}.

Definition email_only_world : world :=
  (commit Validations.EmailAddress_class
     (add email_only (create_all ["address"] (fresh ∅)).2).2).2.

(** One execution of a script as a process: a new session is opened on the
    database file [db], and the file keeps what was committed. *)
Definition run {A} (script : M A) (db : gmap string (list row))
  : gmap string (list row) :=
  committed (script (fresh db)).2.

Fixpoint run_times {A} (n : nat) (script : M A) (db : gmap string (list row))
  : gmap string (list row) :=
  match n with
  | O => db
  | S n' => run_times n' script (run script db)
  end.


(** * Properties *)

(** ** Substring containment *)

Lemma prefix_empty (s : string) : String.prefix "" s = true.
Proof. by destruct s. Qed.

Lemma app_String (c : ascii) (s t : string) :
  String c s +:+ t = String c (s +:+ t).
Proof. reflexivity. Qed.

Lemma prefix_split (sub s : string) :
  String.prefix sub s = true <-> exists post, s = sub +:+ post.
Proof.
  revert s. induction sub as [|c sub IH]; intros s.
  - rewrite prefix_empty. split; [intros _; by exists s | done].
  - destruct s as [|c' s]; simpl.
    + split; [done | intros [post H]; discriminate].
    + destruct (Ascii.ascii_dec c c') as [->|Hne].
      * rewrite IH. split; intros [post H]; exists post; [by rewrite H | rewrite app_String in H; congruence].
      * split; [done | intros [post H]; rewrite app_String in H; congruence].
Qed.

Lemma contains_unfold (sub s : string) :
  contains sub s =
  if String.prefix sub s then true
  else match s with
       | EmptyString => false
       | String _ s' => contains sub s'
       end.
Proof. by destruct s. Qed.

Lemma contains_occurs (sub s : string) : contains sub s = true <-> occurs sub s.
Proof.
  unfold occurs. induction s as [|c s IH]; rewrite contains_unfold.
  - destruct (String.prefix sub "") eqn:Hp.
    + split; [intros _ | done]. apply prefix_split in Hp as [post H]. by exists "", post.
    + split; [done |]. intros (pre & post & H). exfalso.
      destruct pre; [|discriminate]. change ("" +:+ sub +:+ post) with (sub +:+ post) in H.
      assert (String.prefix sub "" = true) by (apply prefix_split; eauto). congruence.
  - destruct (String.prefix sub (String c s)) eqn:Hp.
    + split; [intros _ | done]. apply prefix_split in Hp as [post H]. by exists "", post.
    + rewrite IH. split.
      * intros (pre & post & ->). by exists (String c pre), post.
      * intros (pre & post & H). destruct pre as [|c' pre].
        -- change ("" +:+ sub +:+ post) with (sub +:+ post) in H.
           assert (String.prefix sub (String c s) = true) by (apply prefix_split; eauto).
           congruence.
        -- rewrite app_String in H. injection H as _ ->. by exists pre, post.
Qed.

Lemma contains_count (c : ascii) (s : string) :
  contains (String c "") s = true <-> (1 <= count_char c s)%nat.
Proof.
  induction s as [|c' s IH]; simpl.
  - split; [done | lia].
  - destruct (Ascii.ascii_dec c c') as [->|Hne].
    + rewrite Ascii.eqb_refl. destruct s; simpl; split; (done || lia).
    + destruct (Ascii.eqb c c') eqn:He; [apply Ascii.eqb_eq in He; contradiction|].
      rewrite IH. simpl. done.
Qed.

(** ** The hook and attribute assignment *)

Lemma validations_simple :
  simple_email_class Validations.EmailAddress_class "failed simple email validation".
Proof. split; reflexivity. Qed.

Lemma models_simple :
  simple_email_class Models.EmailAddress_class "Failed simple email validation".
Proof. split; reflexivity. Qed.

Section SimpleEmailClass.

Variable cls : mapper.
Variable msg : string.
Hypothesis Hcls : simple_email_class cls msg.

Lemma validated_attr (a : attr) : bool_decide (attr_name a ∈ validates cls) = true.
Proof.
  destruct Hcls as [-> _]. apply bool_decide_eq_true_2.
  destruct a; simpl; set_solver.
Qed.

Lemma setattr_hook (e : EmailAddress) (a : attr) (v : pyval) :
  setattr cls e a v =
  match py_in (PyStr "@") v with
  | Raise x => Raise x
  | Return found =>
      if negb found then Raise (ValueError msg) else Return (set_column a v e)
  end.
Proof.
  unfold setattr. rewrite validated_attr. destruct Hcls as [_ ->].
  destruct (py_in (PyStr "@") v) as [[]|]; reflexivity.
Qed.

Lemma setattr_str (e : EmailAddress) (a : attr) (s : string) :
  setattr cls e a (PyStr s) =
  if contains "@" s then Return (set_column a (PyStr s) e) else Raise (ValueError msg).
Proof. rewrite setattr_hook. simpl. by destruct (contains "@" s). Qed.

Lemma setattr_Return (e e' : EmailAddress) (a : attr) (v : pyval) :
  setattr cls e a v = Return e' ->
  exists s, v = PyStr s /\ contains "@" s = true /\ e' = set_column a v e.
Proof.
  rewrite setattr_hook. destruct v as [|z|s]; simpl; try discriminate.
  destruct (contains "@" s) eqn:Hc; simpl; [|discriminate].
  intros [= <-]. eauto.
Qed.

Lemma init_rejects (s : string) (kwargs : list kwarg) (self : EmailAddress) :
  assigns s kwargs -> contains "@" s = false ->
  is_Return (init cls self kwargs) = false.
Proof.
  intros Hin Hs. revert self. induction kwargs as [|kw rest IH]; intros self.
  - destruct Hin as [[]|[]].
  - simpl. destruct (set_kwarg cls self kw) as [self'|x] eqn:Hkw; [|done].
    apply IH. destruct Hin as [[->|Hin]|[->|Hin]].
    + simpl in Hkw. rewrite setattr_str, Hs in Hkw. discriminate.
    + by left.
    + simpl in Hkw. rewrite setattr_str, Hs in Hkw. discriminate.
    + by right.
Qed.

Lemma init_str_raises (kwargs : list kwarg) (self : EmailAddress) (x : exn) :
  forallb str_kwarg kwargs = true ->
  init cls self kwargs = Raise x -> x = ValueError msg.
Proof.
  revert self. induction kwargs as [|kw rest IH]; intros self Hstr; simpl; [done|].
  simpl in Hstr. apply andb_prop in Hstr as [Hkw Hrest].
  destruct (set_kwarg cls self kw) as [self'|y] eqn:Hset.
  - by apply IH.
  - intros [= <-]. destruct kw as [i|[|z|s]|[|z|s]]; simpl in *; try discriminate;
      rewrite setattr_str in Hset; destruct (contains "@" s); congruence.
Qed.

Lemma new_rejects_str (s : string) (kwargs : list kwarg) :
  assigns s kwargs -> contains "@" s = false ->
  forallb str_kwarg kwargs = true ->
  new cls kwargs = Raise (ValueError msg).
Proof.
  intros Hin Hs Hstr. unfold new.
  pose proof (init_rejects s kwargs blank Hin Hs) as Hr.
  destruct (init cls blank kwargs) as [e|x] eqn:Hinit; [discriminate|].
  f_equal. by eapply init_str_raises.
Qed.

End SimpleEmailClass.

Lemma register_new_raises (kwargs : list kwarg) (x : exn) (w : world) :
  new Validations.EmailAddress_class kwargs = Raise x ->
  ValidationsScript.register kwargs w = (Raise x, w).
Proof. intros H. unfold ValidationsScript.register, bind, lift. by rewrite H. Qed.

(** C1.  A string assigned to [email] or [backup_email] is handed to the hook,
    which returns it unchanged when it contains '@' and raises the value
    error otherwise.  On a mutation the failing assignment yields no updated
    object; a constructor call that passes a string without '@' for a
    validated attribute raises, and the script that would stage and commit
    the object leaves the world (unit of work and storage) as it was. *)
Theorem hook_accepts_or_raises
  (self e : EmailAddress) (key : string) (a : attr) (s : string)
  (kwargs : list kwarg) (w : world) :
  Validations.validate_email self key (PyStr s) =
    (if contains "@" s then Return (PyStr s)
     else Raise (ValueError "failed simple email validation")) /\
  Models.validate_email self key (PyStr s) =
    (if contains "@" s then Return (PyStr s)
     else Raise (ValueError "Failed simple email validation")) /\
  setattr Validations.EmailAddress_class e a (PyStr s) =
    (if contains "@" s then Return (set_column a (PyStr s) e)
     else Raise (ValueError "failed simple email validation")) /\
  setattr Models.EmailAddress_class e a (PyStr s) =
    (if contains "@" s then Return (set_column a (PyStr s) e)
     else Raise (ValueError "Failed simple email validation")) /\
  (assigns s kwargs -> contains "@" s = false ->
     is_Return (new Validations.EmailAddress_class kwargs) = false /\
     is_Return (new Models.EmailAddress_class kwargs) = false /\
     is_Return (ValidationsScript.register kwargs w).1 = false /\
     (ValidationsScript.register kwargs w).2 = w) /\
  (assigns s kwargs -> contains "@" s = false -> forallb str_kwarg kwargs = true ->
     new Validations.EmailAddress_class kwargs =
       Raise (ValueError "failed simple email validation") /\
     new Models.EmailAddress_class kwargs =
       Raise (ValueError "Failed simple email validation") /\
     ValidationsScript.register kwargs w =
       (Raise (ValueError "failed simple email validation"), w)).
Proof.
  split; [|split; [|split; [|split; [|split]]]].
  - unfold Validations.validate_email. simpl. by destruct (contains "@" s).
  - unfold Models.validate_email. simpl. by destruct (contains "@" s).
  - apply (setattr_str _ _ validations_simple).
  - apply (setattr_str _ _ models_simple).
  - intros Hin Hs.
    pose proof (init_rejects _ _ validations_simple s kwargs blank Hin Hs) as Hv.
    pose proof (init_rejects _ _ models_simple s kwargs blank Hin Hs) as Hm.
    fold (new Validations.EmailAddress_class kwargs) in Hv.
    fold (new Models.EmailAddress_class kwargs) in Hm.
    destruct (new Validations.EmailAddress_class kwargs) as [e'|x] eqn:Hnew; [discriminate|].
    rewrite (register_new_raises kwargs x w Hnew). done.
  - intros Hin Hs Hstr.
    pose proof (new_rejects_str _ _ validations_simple s kwargs Hin Hs Hstr) as Hv.
    pose proof (new_rejects_str _ _ models_simple s kwargs Hin Hs Hstr) as Hm.
    by rewrite (register_new_raises kwargs _ w Hv).
Qed.

Lemma hook_accepts_or_raises_witness :
  ValidationsScript.register [kw_email (PyStr "a@b.com"); kw_backup_email (PyStr "nobody")]
    (fresh {[ "address" := [] ]}) =
  (Raise (ValueError "failed simple email validation"), fresh {[ "address" := [] ]}).
Proof.
  apply (hook_accepts_or_raises blank blank "email" a_email "nobody"
           [kw_email (PyStr "a@b.com"); kw_backup_email (PyStr "nobody")]
           (fresh {[ "address" := [] ]})).
  - right. simpl. tauto.
  - reflexivity.
  - reflexivity.
Defined.

(** C6.  Assignment of a string succeeds exactly when '@' occurs in it: the
    empty string is rejected, a string with two or more '@' is accepted, and
    nothing else about the string matters (a lone '@' is accepted). *)
Theorem validation_is_containment
  (self e : EmailAddress) (key : string) (a : attr) (s : string) :
  (is_Return (Validations.validate_email self key (PyStr s)) = true
     <-> occurs "@" s) /\
  (is_Return (Models.validate_email self key (PyStr s)) = true
     <-> occurs "@" s) /\
  (is_Return (setattr Validations.EmailAddress_class e a (PyStr s)) = true
     <-> occurs "@" s) /\
  (is_Return (setattr Models.EmailAddress_class e a (PyStr s)) = true
     <-> occurs "@" s) /\
  setattr Validations.EmailAddress_class e a (PyStr "") =
    Raise (ValueError "failed simple email validation") /\
  setattr Models.EmailAddress_class e a (PyStr "") =
    Raise (ValueError "Failed simple email validation") /\
  setattr Validations.EmailAddress_class e a (PyStr "@") =
    Return (set_column a (PyStr "@") e) /\
  setattr Models.EmailAddress_class e a (PyStr "@") =
    Return (set_column a (PyStr "@") e) /\
  ((2 <= count_char "@" s)%nat ->
     setattr Validations.EmailAddress_class e a (PyStr s) =
       Return (set_column a (PyStr s) e) /\
     setattr Models.EmailAddress_class e a (PyStr s) =
       Return (set_column a (PyStr s) e)).
Proof.
  rewrite !(setattr_str _ _ validations_simple), !(setattr_str _ _ models_simple).
  rewrite <- contains_occurs.
  unfold Validations.validate_email, Models.validate_email, py_in.
  split; [|split; [|split; [|split; [|split; [|split; [|split; [|split]]]]]]];
    try reflexivity.
  - by destruct (contains "@" s).
  - by destruct (contains "@" s).
  - by destruct (contains "@" s).
  - by destruct (contains "@" s).
  - intros Hc. assert (contains "@" s = true) as -> by (apply contains_count; lia).
    done.
Qed.

Lemma validation_is_containment_witness :
  setattr Validations.EmailAddress_class blank a_email (PyStr "a@b@c") =
    Return (set_column a_email (PyStr "a@b@c") blank) /\
  setattr Models.EmailAddress_class blank a_email (PyStr "a@b@c") =
    Return (set_column a_email (PyStr "a@b@c") blank).
Proof.
  apply (validation_is_containment blank blank "email" a_email "a@b@c"). simpl. lia.
Defined.

(** C9.  The hook of the standalone module and the hook of the embedded
    module accept the same values and reject the others with the same kind
    of exception; on strings the rejection is a value error whose message
    differs in capitalisation only.  The two class statements validate the
    same attributes and differ in the table name. *)
Theorem variants_agree (self self' : EmailAddress) (key key' : string)
  (v : pyval) (s : string) :
  same_outcome (Validations.validate_email self key v)
               (Models.validate_email self' key' v) /\
  is_Return (Validations.validate_email self key (PyStr s)) =
    is_Return (Models.validate_email self' key' (PyStr s)) /\
  match Validations.validate_email self key (PyStr s),
        Models.validate_email self' key' (PyStr s) with
  | Return v1, Return v2 => v1 = PyStr s /\ v2 = PyStr s
  | Raise (ValueError m1), Raise (ValueError m2) =>
      lower m1 = lower m2 /\ String.eqb m1 m2 = false
  | _, _ => False
  end /\
  validates Validations.EmailAddress_class = validates Models.EmailAddress_class /\
  tablename Validations.EmailAddress_class = "address" /\
  tablename Models.EmailAddress_class = "emailaddress".
Proof.
  unfold Validations.validate_email, Models.validate_email.
  repeat split.
  - destruct v as [|z|s0]; simpl; try reflexivity.
    destruct (contains "@" s0); reflexivity.
  - simpl. by destruct (contains "@" s).
  - simpl. destruct (contains "@" s); simpl; split; reflexivity.
Qed.

(** C10.  Assigning [None] (or an integer) to a validated attribute does not
    raise the value error: the containment test raises a type error.  The
    script has no handler for it, so it propagates, and the [except] clause
    of the script would not catch it either.  On a string argument the hook
    never raises a type error. *)
Theorem none_is_a_type_error
  (self e : EmailAddress) (key : string) (a : attr) (z : Z) (s : string)
  (kwargs : list kwarg) (handler : exn -> M unit) (w : world) :
  Validations.validate_email self key PyNone =
    Raise (TypeError "argument of type 'NoneType' is not iterable") /\
  Models.validate_email self key PyNone =
    Raise (TypeError "argument of type 'NoneType' is not iterable") /\
  Validations.validate_email self key (PyInt z) =
    Raise (TypeError "argument of type 'int' is not iterable") /\
  Models.validate_email self key (PyInt z) =
    Raise (TypeError "argument of type 'int' is not iterable") /\
  setattr Validations.EmailAddress_class e a PyNone =
    Raise (TypeError "argument of type 'NoneType' is not iterable") /\
  setattr Models.EmailAddress_class e a PyNone =
    Raise (TypeError "argument of type 'NoneType' is not iterable") /\
  ValidationsScript.register (kw_email PyNone :: kwargs) w =
    (Raise (TypeError "argument of type 'NoneType' is not iterable"), w) /\
  try_except (raise (TypeError "argument of type 'NoneType' is not iterable"))
    is_IntegrityError handler w =
    (Raise (TypeError "argument of type 'NoneType' is not iterable"), w) /\
  match Validations.validate_email self key (PyStr s) with
  | Return v => v = PyStr s
  | Raise x => is_TypeError x = false
  end /\
  match Models.validate_email self key (PyStr s) with
  | Return v => v = PyStr s
  | Raise x => is_TypeError x = false
  end.
Proof.
  split; [|split; [|split; [|split; [|split; [|split; [|split; [|split; [|split]]]]]]]];
    try reflexivity.
  - by rewrite (setattr_hook _ _ validations_simple).
  - by rewrite (setattr_hook _ _ models_simple).
  - unfold Validations.validate_email. simpl. destruct (contains "@" s); reflexivity.
  - unfold Models.validate_email. simpl. destruct (contains "@" s); reflexivity.
Qed.

(** ** Storage *)

Lemma has_id_bound (i : Z) (rows : list row) :
  has_id i rows = true -> i < next_id rows.
Proof.
  unfold has_id, next_id. induction rows as [|r rows IH]; simpl; [done|].
  intros [H|H]%orb_prop; [apply Z.eqb_eq in H | apply IH in H]; lia.
Qed.

Lemma next_id_fresh (rows : list row) : has_id (next_id rows) rows = false.
Proof.
  destruct (has_id (next_id rows) rows) eqn:H; [|done].
  apply has_id_bound in H. lia.
Qed.

Lemma insert_row_fresh (e : EmailAddress) (rows : list row) :
  (forall i, id e = Some i -> has_id i rows = false) ->
  insert_row e rows =
  Return (rows ++ [mkRow (default (next_id rows) (id e)) (email e) (backup_email e)]).
Proof.
  intros Hfresh. unfold insert_row. destruct (id e) as [i|]; [|done].
  by rewrite (Hfresh i eq_refl).
Qed.

Lemma insert_row_IntegrityError (e : EmailAddress) (rows : list row) (x : exn) :
  insert_row e rows = Raise x -> is_IntegrityError x = true.
Proof.
  unfold insert_row. destruct (id e) as [i|]; [|done].
  destruct (has_id i rows); [|done]. by intros [= <-].
Qed.

Lemma create_table_noop (t : string) (db : gmap string (list row)) :
  is_Some (db !! t) -> create_table t db = db.
Proof. intros [rows H]. unfold create_table. by rewrite H. Qed.

Lemma create_table_lookup (t t' : string) (db : gmap string (list row)) (rows : list row) :
  db !! t' = Some rows -> create_table t db !! t' = Some rows.
Proof.
  intros H. unfold create_table. destruct (db !! t) eqn:Ht; [done|].
  rewrite lookup_insert_ne; [done|]. intros ->. congruence.
Qed.

Lemma create_table_present (t : string) (db : gmap string (list row)) :
  is_Some (create_table t db !! t).
Proof.
  unfold create_table. destruct (db !! t) eqn:Ht; [by rewrite Ht|].
  rewrite lookup_insert_eq. eauto.
Qed.

Lemma create_tables_lookup (md : list string) (t : string)
  (db : gmap string (list row)) (rows : list row) :
  db !! t = Some rows -> foldr create_table db md !! t = Some rows.
Proof. induction md as [|t0 md IH]; simpl; [done|]. intros H. by apply create_table_lookup, IH. Qed.

Lemma create_tables_present (md : list string) (t : string) (db : gmap string (list row)) :
  t ∈ md -> is_Some (foldr create_table db md !! t).
Proof.
  induction md as [|t0 md IH]; simpl; [by intros ?%elem_of_nil|].
  intros [->|Hin]%elem_of_cons; [apply create_table_present|].
  destruct (IH Hin) as [rows Hrows]. exists rows. by apply create_table_lookup.
Qed.

Lemma create_tables_noop (md : list string) (db : gmap string (list row)) :
  (forall t, t ∈ md -> is_Some (db !! t)) -> foldr create_table db md = db.
Proof.
  induction md as [|t0 md IH]; simpl; [done|]. intros H.
  rewrite IH by (intros t Ht; apply H; by right).
  apply create_table_noop, H. by left.
Qed.

Lemma create_tables_idempotent (md : list string) (db : gmap string (list row)) :
  foldr create_table (foldr create_table db md) md = foldr create_table db md.
Proof. apply create_tables_noop. intros t Ht. by apply create_tables_present. Qed.

(** ** Schema initialisation *)

(** C8.  Creating all tables never fails, keeps every existing table with its
    rows, changes nothing at all when the tables exist already, and a second
    call leaves the schema as the first call left it. *)
Theorem create_all_idempotent (md : list string) (w : world) :
  (create_all md w).1 = Return tt /\
  (forall t rows, committed w !! t = Some rows ->
     committed (create_all md w).2 !! t = Some rows) /\
  (forall t rows, working w !! t = Some rows ->
     working (create_all md w).2 !! t = Some rows) /\
  ((forall t, t ∈ md -> is_Some (committed w !! t) /\ is_Some (working w !! t)) ->
     committed (create_all md w).2 = committed w /\
     working (create_all md w).2 = working w) /\
  pending (create_all md w).2 = pending w /\
  failed (create_all md w).2 = failed w /\
  (create_all md (create_all md w).2).1 = Return tt /\
  committed (create_all md (create_all md w).2).2 = committed (create_all md w).2 /\
  working (create_all md (create_all md w).2).2 = working (create_all md w).2.
Proof.
  simpl. repeat split.
  - intros t rows. apply create_tables_lookup.
  - intros t rows. apply create_tables_lookup.
  - apply create_tables_noop. intros t Ht. by apply H.
  - apply create_tables_noop. intros t Ht. by apply H.
  - apply create_tables_idempotent.
  - apply create_tables_idempotent.
Qed.

Lemma create_all_idempotent_witness :
  committed
    (create_all ValidationsScript.metadata
       (fresh {[ "address" := [mkRow 1 (PyStr "a@b.com") (PyStr "c@d.com")] ]})).2 =
    {[ "address" := [mkRow 1 (PyStr "a@b.com") (PyStr "c@d.com")] ]} /\
  working
    (create_all ValidationsScript.metadata
       (fresh {[ "address" := [mkRow 1 (PyStr "a@b.com") (PyStr "c@d.com")] ]})).2 =
    {[ "address" := [mkRow 1 (PyStr "a@b.com") (PyStr "c@d.com")] ]}.
Proof.
  destruct (create_all_idempotent ValidationsScript.metadata
              (fresh {[ "address" := [mkRow 1 (PyStr "a@b.com") (PyStr "c@d.com")] ]}))
    as (_ & _ & _ & Hnoop & _).
  apply Hnoop. intros t Ht%list_elem_of_singleton. subst t. simpl.
  rewrite lookup_singleton_eq. split; eauto.
Defined.

(** ** Bulk delete *)

(** C7.  On a usable session, whatever rows the table holds, the bulk delete
    reports their number and the table is empty at once: a query issued right
    after the call finds no row.  The unit of work is not involved: what was
    staged stays staged and no commit is needed. *)
Theorem delete_all_empties_table (cls : mapper) (w : world) (rows : list row) :
  working w !! tablename cls = Some rows -> failed w = false ->
  (query_delete cls w).1 = Return (length rows) /\
  working (query_delete cls w).2 !! tablename cls = Some [] /\
  query_all cls (query_delete cls w).2 = (Return [], (query_delete cls w).2) /\
  pending (query_delete cls w).2 = pending w /\
  log (query_delete cls w).2 = log w ++ [CallDelete].
Proof.
  intros Hrows Hfailed. unfold query_delete. rewrite Hfailed, Hrows. simpl.
  repeat split.
  - apply lookup_insert_eq.
  - unfold query_all. simpl. by rewrite lookup_insert_eq.
Qed.

Lemma delete_all_empties_table_witness :
  working (query_delete Models.EmailAddress_class
             (fresh {[ "emailaddress" := [mkRow 4 PyNone PyNone; mkRow 9 PyNone PyNone] ]})).2
    !! "emailaddress" = Some [].
Proof.
  refine (proj1 (proj2 (delete_all_empties_table Models.EmailAddress_class
           (fresh {[ "emailaddress" := [mkRow 4 PyNone PyNone; mkRow 9 PyNone PyNone] ]})
           [mkRow 4 PyNone PyNone; mkRow 9 PyNone PyNone] _ _))).
  - simpl. apply lookup_singleton_eq.
  - reflexivity.
Defined.

(** ** Commit, integrity violations and rollback *)

Lemma commit_raise_inv (cls : mapper) (w : world) (x : exn) :
  (commit cls w).1 = Raise x -> is_IntegrityError x = true ->
  failed w = false /\ flush cls (pending w) (working w) = Raise x.
Proof.
  unfold commit. destruct (failed w).
  - simpl. intros [= <-]. discriminate.
  - destruct (flush cls (pending w) (working w)) as [db|y]; simpl; [discriminate|].
    by intros [= ->].
Qed.

Lemma flush_one (cls : mapper) (e : EmailAddress) (db : gmap string (list row))
  (rows : list row) :
  db !! tablename cls = Some rows ->
  (forall i, id e = Some i -> has_id i rows = false) ->
  flush cls [e] db =
  Return (<[tablename cls :=
              rows ++ [mkRow (default (next_id rows) (id e)) (email e) (backup_email e)]]> db).
Proof.
  intros Hrows Hfresh. unfold flush. rewrite Hrows. simpl.
  by rewrite insert_row_fresh.
Qed.

(** C3.  When the commit of the script raises an integrity violation, the
    [try] block catches it, prints the fixed message and rolls back; the
    commit is attempted once.  The session is then clean (nothing staged, no
    failed transaction, storage as it was), and staging and committing a new
    entity that meets the key constraint succeeds and stores it. *)
Theorem rollback_restores_session
  (w : world) (x : exn) (e' : EmailAddress) (rows : list row) :
  (commit Validations.EmailAddress_class w).1 = Raise x ->
  is_IntegrityError x = true ->
  committed w !! "address" = Some rows ->
  (forall i, id e' = Some i -> has_id i rows = false) ->
  exists w1 w2,
    ValidationsScript.guarded_commit w = (Return tt, w1) /\
    stdout w1 = stdout w ++ ["Integrity violation blocked!"] /\
    log w1 = log w ++ [CallCommit; CallRollback] /\
    committed w1 = committed w /\ working w1 = committed w /\
    pending w1 = [] /\ failed w1 = false /\
    (add e' ;; commit Validations.EmailAddress_class)%prog w1 = (Return tt, w2) /\
    committed w2 !! "address" =
      Some (rows ++ [mkRow (default (next_id rows) (id e')) (email e') (backup_email e')]) /\
    working w2 = committed w2 /\ pending w2 = [] /\ failed w2 = false /\
    log w2 = log w1 ++ [CallAdd; CallCommit].
Proof.
  intros Hraise Hx Hrows Hfresh.
  destruct (commit_raise_inv _ _ _ Hraise Hx) as [Hfailed Hflush].
  unfold ValidationsScript.guarded_commit, try_except, commit.
  rewrite Hfailed, Hflush, Hx. unfold bind, print, rollback. simpl.
  eexists _, _. split; [reflexivity|]. simpl.
  rewrite <- !app_assoc. simpl.
  rewrite Hrows, (insert_row_fresh e' rows Hfresh).
  repeat split. simpl. apply lookup_insert_eq.
Qed.

Lemma rollback_restores_session_witness :
  exists w1 w2,
    ValidationsScript.guarded_commit
      {| committed := {[ "address" := [mkRow 1 PyNone PyNone] ]};
         working := {[ "address" := [mkRow 1 PyNone PyNone] ]};
         pending := [mkEmailAddress (Some 1) (PyStr "a@b.com") (PyStr "c@d.com")];
         failed := false; stdout := []; log := [] |} = (Return tt, w1) /\
    (add (mkEmailAddress None (PyStr "e@f.com") (PyStr "g@h.com")) ;;
     commit Validations.EmailAddress_class)%prog w1 = (Return tt, w2) /\
    committed w2 !! "address" =
      Some [mkRow 1 PyNone PyNone; mkRow 2 (PyStr "e@f.com") (PyStr "g@h.com")].
Proof.
  destruct (rollback_restores_session
              {| committed := {[ "address" := [mkRow 1 PyNone PyNone] ]};
                 working := {[ "address" := [mkRow 1 PyNone PyNone] ]};
                 pending := [mkEmailAddress (Some 1) (PyStr "a@b.com") (PyStr "c@d.com")];
                 failed := false; stdout := []; log := [] |}
              (IntegrityError "UNIQUE constraint failed")
              (mkEmailAddress None (PyStr "e@f.com") (PyStr "g@h.com"))
              [mkRow 1 PyNone PyNone])
    as (w1 & w2 & H1 & _ & _ & _ & _ & _ & _ & H2 & H3 & _).
  - unfold commit, flush. simpl. rewrite lookup_singleton_eq. reflexivity.
  - reflexivity.
  - simpl. apply lookup_singleton_eq.
  - simpl. discriminate.
  - exists w1, w2. split; [exact H1|]. split; [exact H2|exact H3].
Defined.

(** ** Round trip *)

Lemma commit_one (cls : mapper) (e : EmailAddress) (w : world) (rows : list row) :
  working w !! tablename cls = Some rows -> failed w = false -> pending w = [] ->
  (forall i, id e = Some i -> has_id i rows = false) ->
  (add e ;; commit cls)%prog w =
  (Return tt,
   {| committed :=
        <[tablename cls :=
            rows ++ [mkRow (default (next_id rows) (id e)) (email e) (backup_email e)]]>
          (working w);
      working :=
        <[tablename cls :=
            rows ++ [mkRow (default (next_id rows) (id e)) (email e) (backup_email e)]]>
          (working w);
      pending := []; failed := false; stdout := stdout w;
      log := log w ++ [CallAdd; CallCommit] |}).
Proof.
  intros Hrows Hfailed Hpending Hfresh.
  unfold bind, add, commit. cbn [failed pending working committed stdout log].
  rewrite Hfailed, Hpending. cbn [app].
  rewrite (flush_one cls e (working w) rows Hrows Hfresh).
  by rewrite <- app_assoc.
Qed.

Lemma add_then {A} (e : EmailAddress) (k : M A) (w : world) :
  (add e ;; k)%prog w = k (add e w).2.
Proof. reflexivity. Qed.

Lemma register_accepts (kwargs : list kwarg) (e : EmailAddress) (w : world) :
  new Validations.EmailAddress_class kwargs = Return e ->
  ValidationsScript.register kwargs w = ValidationsScript.guarded_commit (add e w).2.
Proof. intros H. unfold ValidationsScript.register, bind, lift. by rewrite H. Qed.

Lemma guarded_commit_Return (w w' : world) :
  commit Validations.EmailAddress_class w = (Return tt, w') ->
  ValidationsScript.guarded_commit w = (Return tt, w').
Proof. intros H. unfold ValidationsScript.guarded_commit, try_except. by rewrite H. Qed.

(** C5.  On a usable session with nothing staged, the entity built from
    'a@b.com' and 'c@d.com', once added and committed, is returned by a
    query with exactly these two strings and with the key that the storage
    layer assigned, a key no earlier row carries. *)
Theorem round_trip_retrieves (w : world) (rows : list row) :
  working w !! "address" = Some rows -> failed w = false -> pending w = [] ->
  exists w',
    round_trip w =
      (Return ((of_row <$> rows) ++
               [{| id := Some (next_id rows); email := PyStr "a@b.com";
                   backup_email := PyStr "c@d.com" |}]), w') /\
    committed w' !! "address" =
      Some (rows ++ [mkRow (next_id rows) (PyStr "a@b.com") (PyStr "c@d.com")]) /\
    has_id (next_id rows) rows = false.
Proof.
  intros Hrows Hfailed Hpending.
  pose proof (commit_one Validations.EmailAddress_class
                {| id := None; email := PyStr "a@b.com"; backup_email := PyStr "c@d.com" |}
                w rows Hrows Hfailed Hpending) as Hcommit.
  rewrite add_then in Hcommit.
  unfold round_trip. unfold bind at 1.
  rewrite (register_accepts _ {| id := None; email := PyStr "a@b.com";
                                 backup_email := PyStr "c@d.com" |}) by reflexivity.
  rewrite (guarded_commit_Return _ _ (Hcommit ltac:(discriminate))).
  unfold query_all. cbn [failed working].
  change (tablename Validations.EmailAddress_class) with "address".
  rewrite lookup_insert_eq. eexists. split; [|split].
  - by rewrite fmap_app.
  - cbn [committed]. apply lookup_insert_eq.
  - apply next_id_fresh.
Qed.

Lemma round_trip_retrieves_witness :
  exists w',
    round_trip (fresh {[ "address" := [mkRow 3 (PyStr "x@y") PyNone] ]}) =
      (Return [{| id := Some 3; email := PyStr "x@y"; backup_email := PyNone |};
               {| id := Some 4; email := PyStr "a@b.com";
                  backup_email := PyStr "c@d.com" |}], w').
Proof.
  destruct (round_trip_retrieves
              (fresh {[ "address" := [mkRow 3 (PyStr "x@y") PyNone] ]})
              [mkRow 3 (PyStr "x@y") PyNone])
    as (w' & H & _).
  - simpl. apply lookup_singleton_eq.
  - reflexivity.
  - reflexivity.
  - exists w'. exact H.
Defined.

(** ** The seed script *)

Lemma seed_entity :
  new Models.EmailAddress_class
    [kw_email (PyStr "email@email.com"); kw_backup_email (PyStr "email@email.com")] =
  Return {| id := None; email := PyStr "email@email.com";
            backup_email := PyStr "email@email.com" |}.
Proof. reflexivity. Qed.

Lemma seed_loop (w : world) :
  Seed.emails_loop w =
  (Return (replicate 25 {| id := None; email := PyStr "email@email.com";
                           backup_email := PyStr "email@email.com" |}), w).
Proof. vm_compute. reflexivity. Qed.

Lemma seed_insert :
  insert_rows
    (replicate 25 {| id := None; email := PyStr "email@email.com";
                     backup_email := PyStr "email@email.com" |}) [] =
  Return seeded.
Proof. vm_compute. reflexivity. Qed.

(** C4.  Started on a usable session with nothing staged, whatever rows the
    table holds, the seed script deletes them, stages 25 objects built from
    the constant 'email@email.com' (the loop returns them, no constructor
    call raises), commits once and returns; the table then holds exactly the
    25 seeded rows. *)
Theorem seed_leaves_25_rows (w : world) (rows : list row) :
  working w !! "emailaddress" = Some rows -> failed w = false -> pending w = [] ->
  Seed.main w =
    (Return tt,
     {| committed := <["emailaddress" := seeded]> (working w);
        working := <["emailaddress" := seeded]> (working w);
        pending := []; failed := false; stdout := stdout w;
        log := log w ++ [CallDelete; CallAddAll 25; CallCommit] |}) /\
  committed (Seed.main w).2 !! "emailaddress" = Some seeded /\
  length seeded = 25%nat /\
  Forall (fun r => row_email r = PyStr "email@email.com" /\
                   row_backup_email r = PyStr "email@email.com") seeded /\
  Seed.emails_loop w =
    (Return (replicate 25 {| id := None; email := PyStr "email@email.com";
                             backup_email := PyStr "email@email.com" |}), w).
Proof.
  intros Hrows Hfailed Hpending.
  assert (Seed.main w =
    (Return tt,
     {| committed := <["emailaddress" := seeded]> (working w);
        working := <["emailaddress" := seeded]> (working w);
        pending := []; failed := false; stdout := stdout w;
        log := log w ++ [CallDelete; CallAddAll 25; CallCommit] |})) as Hmain.
  { unfold Seed.main. unfold bind at 1. unfold query_delete.
    change (tablename Models.EmailAddress_class) with "emailaddress".
    rewrite Hfailed, Hrows. unfold bind at 1. rewrite seed_loop.
    unfold bind, add_all, commit. cbn [failed pending working committed stdout log].
    rewrite Hpending. cbn [app]. unfold flush.
    change (tablename Models.EmailAddress_class) with "emailaddress".
    rewrite lookup_insert_eq, seed_insert, insert_insert_eq.
    cbn [replicate]. by rewrite <- !app_assoc. }
  split; [exact Hmain|]. rewrite Hmain. split; [apply lookup_insert_eq|].
  split; [reflexivity|]. split; [|apply seed_loop].
  unfold seeded. apply Forall_fmap, Forall_forall. done.
Qed.

Lemma seed_leaves_25_rows_witness :
  committed
    (Seed.main (fresh {[ "emailaddress" := [mkRow 7 (PyStr "old@x") PyNone] ]})).2
    !! "emailaddress" = Some seeded.
Proof.
  refine (proj1 (proj2 (seed_leaves_25_rows
            (fresh {[ "emailaddress" := [mkRow 7 (PyStr "old@x") PyNone] ]})
            [mkRow 7 (PyStr "old@x") PyNone] _ _ _))).
  - simpl. apply lookup_singleton_eq.
  - reflexivity.
  - reflexivity.
Defined.

(** ** The '@' invariant *)

Lemma contains_has_at (s : string) : contains "@" s = true -> has_at (PyStr s).
Proof. intros H. exists s. split; [done|]. by apply contains_occurs. Qed.

Lemma none_has_no_at : ~ has_at PyNone.
Proof. intros (s & H & _). discriminate. Qed.

Section Invariant.

Variable cls : mapper.
Variable msg : string.
Hypothesis Hcls : simple_email_class cls msg.

Lemma setattr_assigned (e e' : EmailAddress) (a : attr) (v : pyval) :
  setattr cls e a v = Return e' -> getattr e' a = v /\ has_at v.
Proof.
  intros (s & -> & Hs & ->)%(setattr_Return cls msg Hcls).
  split; [by destruct a | by apply contains_has_at].
Qed.

Lemma setattr_ok (e e' : EmailAddress) (a : attr) (v : pyval) :
  entity_ok e -> setattr cls e a v = Return e' -> entity_ok e'.
Proof.
  intros [Hemail Hbackup] H.
  destruct (setattr_assigned _ _ _ _ H) as [_ Hv].
  apply (setattr_Return cls msg Hcls) in H as (s & _ & _ & ->).
  destruct a; split; simpl; auto; by right.
Qed.

Lemma set_kwarg_ok (self self' : EmailAddress) (kw : kwarg) :
  entity_ok self -> set_kwarg cls self kw = Return self' -> entity_ok self'.
Proof.
  destruct kw as [i|v|v]; simpl.
  - intros Hok [= <-]. exact Hok.
  - apply setattr_ok.
  - apply setattr_ok.
Qed.

Lemma init_ok (kwargs : list kwarg) (self e : EmailAddress) :
  entity_ok self -> init cls self kwargs = Return e -> entity_ok e.
Proof.
  revert self. induction kwargs as [|kw rest IH]; intros self Hok; simpl.
  - by intros [= <-].
  - destruct (set_kwarg cls self kw) as [self'|x] eqn:Hkw; [|discriminate].
    apply IH. by eapply set_kwarg_ok.
Qed.

Lemma blank_ok : entity_ok blank.
Proof. split; by left. Qed.

Lemma instance_ok (e : EmailAddress) : instance cls e -> entity_ok e.
Proof.
  induction 1 as [kwargs e Hnew|e a v e' _ IH Hset].
  - eapply init_ok; [apply blank_ok | exact Hnew].
  - by eapply setattr_ok.
Qed.

Lemma insert_row_ok (e : EmailAddress) (rows rows' : list row) :
  entity_ok e -> Forall row_ok rows -> insert_row e rows = Return rows' ->
  Forall row_ok rows'.
Proof.
  intros He Hrows. unfold insert_row.
  destruct (id e) as [i|]; [destruct (has_id i rows); [discriminate|]|];
    intros [= <-]; apply Forall_app; split; auto; by apply Forall_singleton.
Qed.

Lemma insert_rows_ok (es : list EmailAddress) (rows rows' : list row) :
  Forall entity_ok es -> Forall row_ok rows -> insert_rows es rows = Return rows' ->
  Forall row_ok rows'.
Proof.
  intros Hes. revert rows. induction Hes as [|e es He Hes IH]; intros rows Hrows; simpl.
  - by intros [= <-].
  - destruct (insert_row e rows) as [rows1|x] eqn:Hins; [|discriminate].
    apply IH. by eapply insert_row_ok.
Qed.

Lemma db_ok_insert (t : string) (rows : list row) (db : gmap string (list row)) :
  db_ok db -> Forall row_ok rows -> db_ok (<[t := rows]> db).
Proof.
  intros Hdb Hrows t' rows'. destruct (decide (t = t')) as [->|Hne].
  - rewrite lookup_insert_eq. by intros [= <-].
  - rewrite lookup_insert_ne by done. apply Hdb.
Qed.

Lemma flush_ok (es : list EmailAddress) (db db' : gmap string (list row)) :
  Forall entity_ok es -> db_ok db -> flush cls es db = Return db' -> db_ok db'.
Proof.
  intros Hes Hdb. unfold flush. destruct es as [|e es]; [by intros [= <-]|].
  destruct (db !! tablename cls) as [rows|] eqn:Hrows; [|discriminate].
  destruct (insert_rows (e :: es) rows) as [rows'|x] eqn:Hins; [|discriminate].
  intros [= <-]. apply db_ok_insert; [done|].
  eapply insert_rows_ok; [exact Hes | by eapply Hdb | exact Hins].
Qed.

Lemma create_table_ok (t : string) (db : gmap string (list row)) :
  db_ok db -> db_ok (create_table t db).
Proof.
  intros Hdb. unfold create_table. destruct (db !! t); [done|].
  by apply db_ok_insert.
Qed.

Lemma create_tables_ok (md : list string) (db : gmap string (list row)) :
  db_ok db -> db_ok (foldr create_table db md).
Proof. intros Hdb. induction md as [|t md IH]; simpl; [done|]. by apply create_table_ok. Qed.

Lemma step_ok (w w' : world) : world_ok w -> step cls w w' -> world_ok w'.
Proof.
  intros (Hc & Hw & Hp) Hstep. destruct Hstep as [md w|e w He|es w Hes|w|w|w|msg' w].
  - repeat split; simpl; auto using create_tables_ok.
  - repeat split; simpl; auto.
    apply Forall_app; split; [done|]. apply Forall_singleton. by apply instance_ok.
  - repeat split; simpl; auto.
    apply Forall_app; split; [done|]. eapply Forall_impl; [exact Hes|]. apply instance_ok.
  - unfold commit. destruct (failed w); [by repeat split|].
    destruct (flush cls (pending w) (working w)) as [db|x] eqn:Hflush.
    + pose proof (flush_ok _ _ _ Hp Hw Hflush). by repeat split.
    + by repeat split.
  - by repeat split.
  - unfold query_delete. destruct (failed w); [by repeat split|].
    destruct (working w !! tablename cls) as [rows|]; [|by repeat split].
    repeat split; simpl; auto. by apply db_ok_insert.
  - by repeat split.
Qed.

Lemma reachable_ok (w w' : world) : world_ok w -> rtc (step cls) w w' -> world_ok w'.
Proof. intros Hok Hsteps. induction Hsteps as [|w w1 w2 Hstep _ IH]; eauto using step_ok. Qed.

Lemma fresh_ok (db : gmap string (list row)) : db_ok db -> world_ok (fresh db).
Proof. intros Hdb. repeat split; simpl; auto. Qed.

End Invariant.

Lemma email_only_instance : instance Validations.EmailAddress_class email_only.
Proof. by apply (instance_new _ [kw_email (PyStr "a@b.com")]). Qed.

Lemma email_only_reachable :
  rtc (step Validations.EmailAddress_class) (fresh ∅) email_only_world.
Proof.
  unfold email_only_world.
  eapply rtc_l; [apply (step_create_all _ ["address"])|].
  eapply rtc_l; [apply step_add, email_only_instance|].
  eapply rtc_l; [apply step_commit|]. apply rtc_refl.
Qed.

Lemma email_only_rows :
  committed email_only_world !! "address" = Some [mkRow 1 (PyStr "a@b.com") PyNone].
Proof. vm_compute. reflexivity. Qed.

(** C2, as stated, fails: an object constructed without [backup_email] is
    persisted with that column unassigned, so not every persisted row has an
    '@' in both columns. *)
Lemma strict_invariant_fails : ~ strict_invariant Validations.EmailAddress_class.
Proof.
  intros H.
  destruct (H email_only_world _ (mkRow 1 (PyStr "a@b.com") PyNone)
              email_only_reachable email_only_rows) as [_ Hbackup].
  - by apply list_elem_of_singleton.
  - by apply none_has_no_at in Hbackup.
Qed.

(** C2, amended.  For both classes: an assignment that succeeds stores the
    assigned value, which is a string containing '@'; every object obtained
    by construction and mutation holds, in each of the two columns, either
    nothing (the column was never assigned) or a string containing '@'; and
    the same holds of every persisted row in every state the session
    operations can reach from a database whose rows satisfy it. *)
Theorem assigned_fields_contain_at (cls : mapper) :
  cls = Validations.EmailAddress_class \/ cls = Models.EmailAddress_class ->
  (forall e a v e', setattr cls e a v = Return e' -> getattr e' a = v /\ has_at v) /\
  (forall e, instance cls e -> field_ok (email e) /\ field_ok (backup_email e)) /\
  (forall db w t rows r,
     db_ok db -> rtc (step cls) (fresh db) w ->
     committed w !! t = Some rows -> r ∈ rows ->
     field_ok (row_email r) /\ field_ok (row_backup_email r)).
Proof.
  intros Hcls.
  assert (exists msg, simple_email_class cls msg) as [msg Hsimple].
  { destruct Hcls as [->| ->]; eexists; [apply validations_simple | apply models_simple]. }
  split; [|split].
  - intros e a v e'. apply (setattr_assigned cls msg Hsimple).
  - intros e. apply (instance_ok cls msg Hsimple).
  - intros db w t rows r Hdb Hreach Hrows Hr.
    destruct (reachable_ok cls msg Hsimple _ _ (fresh_ok db Hdb) Hreach) as (Hc & _ & _).
    specialize (Hc t rows Hrows). rewrite Forall_forall in Hc. by apply Hc.
Qed.

Lemma assigned_fields_contain_at_witness :
  field_ok (row_email (mkRow 1 (PyStr "a@b.com") PyNone)) /\
  field_ok (row_backup_email (mkRow 1 (PyStr "a@b.com") PyNone)).
Proof.
  destruct (assigned_fields_contain_at Validations.EmailAddress_class (or_introl eq_refl))
    as (_ & _ & Hrows).
  apply (Hrows ∅ email_only_world "address" [mkRow 1 (PyStr "a@b.com") PyNone]).
  - intros t rows H. rewrite lookup_empty in H. discriminate.
  - apply email_only_reachable.
  - apply email_only_rows.
  - by apply list_elem_of_singleton.
Defined.

(** ** The standalone script as written *)

Lemma main_on_empty_database :
  exists w,
    ValidationsScript.main (fresh ∅) = (Return tt, w) /\
    committed w !! "address" =
      Some [mkRow 1 (PyStr "firstname@student.com") (PyStr "firstnameBackup@student.com")] /\
    stdout w = [] /\ log w = [CallCreateAll; CallAdd; CallCommit].
Proof. eexists. split; [vm_compute; reflexivity|]. by vm_compute. Qed.

(** * Further properties of the scripts *)

(** ** Key assignment *)




(** ** The standalone script as a whole *)

Lemma new_valid (cls : mapper) (msg : string) (s t : string) :
  simple_email_class cls msg ->
  contains "@" s = true -> contains "@" t = true ->
  new cls [kw_email (PyStr s); kw_backup_email (PyStr t)] =
  Return {| id := None; email := PyStr s; backup_email := PyStr t |}.
Proof.
  intros Hcls Hs Ht. unfold new. simpl.
  rewrite (setattr_str cls msg Hcls), Hs. simpl.
  by rewrite (setattr_str cls msg Hcls), Ht.
Qed.

Lemma register_valid (s t : string) (w : world) (rows : list row) :
  contains "@" s = true -> contains "@" t = true ->
  working w !! "address" = Some rows -> failed w = false -> pending w = [] ->
  ValidationsScript.register [kw_email (PyStr s); kw_backup_email (PyStr t)] w =
  (Return tt,
   {| committed := <["address" := rows ++ [mkRow (next_id rows) (PyStr s) (PyStr t)]]>
                     (working w);
      working := <["address" := rows ++ [mkRow (next_id rows) (PyStr s) (PyStr t)]]>
                   (working w);
      pending := []; failed := false; stdout := stdout w;
      log := log w ++ [CallAdd; CallCommit] |}).
Proof.
  intros Hs Ht Hrows Hfailed Hpending.
  rewrite (register_accepts _ _ w (new_valid _ _ s t validations_simple Hs Ht)).
  apply guarded_commit_Return. rewrite <- add_then.
  by rewrite (commit_one Validations.EmailAddress_class _ w rows Hrows Hfailed Hpending).
Qed.

Lemma create_table_default (t : string) (db : gmap string (list row)) :
  create_table t db !! t = Some (default [] (db !! t)).
Proof.
  unfold create_table. destruct (db !! t) as [rows|] eqn:Ht; simpl; [done|].
  apply lookup_insert_eq.
Qed.

Lemma insert_create_table (t : string) (rows : list row) (db : gmap string (list row)) :
  <[t := rows]> (create_table t db) = <[t := rows]> db.
Proof.
  unfold create_table. destruct (db !! t); [done|]. apply insert_insert_eq.
Qed.

Lemma main_fresh_eq (db : gmap string (list row)) :
  ValidationsScript.main (fresh db) =
    (Return tt,
     {| committed :=
          <["address" :=
              default [] (db !! "address") ++
              [mkRow (next_id (default [] (db !! "address")))
                 (PyStr "firstname@student.com") (PyStr "firstnameBackup@student.com")]]> db;
        working :=
          <["address" :=
              default [] (db !! "address") ++
              [mkRow (next_id (default [] (db !! "address")))
                 (PyStr "firstname@student.com") (PyStr "firstnameBackup@student.com")]]> db;
        pending := []; failed := false; stdout := [];
        log := [CallCreateAll; CallAdd; CallCommit] |}).
Proof.
  unfold ValidationsScript.main. unfold bind at 1. unfold create_all.
  cbn [fresh committed working pending failed stdout log ValidationsScript.metadata
       tablename Validations.EmailAddress_class foldr app].
  rewrite (register_valid _ _ _ (default [] (db !! "address")));
    try reflexivity; [|apply create_table_default].
  cbn [working stdout log app]. by rewrite insert_create_table.
Qed.

Lemma run_main_eq (db : gmap string (list row)) :
  run ValidationsScript.main db =
  <["address" :=
      default [] (db !! "address") ++
      [mkRow (next_id (default [] (db !! "address")))
         (PyStr "firstname@student.com") (PyStr "firstnameBackup@student.com")]]> db.
Proof. unfold run. by rewrite main_fresh_eq. Qed.

(** X1.  Started as a new process on any database file, with or without the
    table, the standalone script returns normally: it creates the table when
    it is missing, commits once, never takes the [except] branch (nothing is
    printed, no rollback), and the table gains exactly one row, which carries
    the two addresses of line 33 under a fresh key; no other table changes. *)
Theorem main_appends_one_row (db : gmap string (list row)) :
  ValidationsScript.main (fresh db) =
    (Return tt,
     {| committed :=
          <["address" :=
              default [] (db !! "address") ++
              [mkRow (next_id (default [] (db !! "address")))
                 (PyStr "firstname@student.com") (PyStr "firstnameBackup@student.com")]]> db;
        working :=
          <["address" :=
              default [] (db !! "address") ++
              [mkRow (next_id (default [] (db !! "address")))
                 (PyStr "firstname@student.com") (PyStr "firstnameBackup@student.com")]]> db;
        pending := []; failed := false; stdout := [];
        log := [CallCreateAll; CallAdd; CallCommit] |}) /\
  has_id (next_id (default [] (db !! "address"))) (default [] (db !! "address")) = false /\
  (forall t, t <> "address" -> run ValidationsScript.main db !! t = db !! t).
Proof.
  split; [apply main_fresh_eq|]. split; [apply next_id_fresh|].
  intros t Ht. rewrite run_main_eq. by rewrite lookup_insert_ne.
Qed.





(** ** The guarded commit *)

(** X3.  Whatever the state of the session, the [try] block of lines 36-40
    ends in one of two ways.  Either it returns, and then the session is
    clean: nothing is staged, no transaction is pending, and the message was
    printed only if storage was left as it was.  Or it raises, and then the
    exception is not an integrity violation, nothing was printed, storage is
    as it was, and the session is left in its failed state, since the script
    rolls back in the [except] branch only. *)
Theorem guarded_commit_outcome (w : world) :
  match ValidationsScript.guarded_commit w with
  | (Return _, w') =>
      pending w' = [] /\ failed w' = false /\ working w' = committed w' /\
      (stdout w' = stdout w \/
       stdout w' = stdout w ++ ["Integrity violation blocked!"] /\
       committed w' = committed w)
  | (Raise x, w') =>
      is_IntegrityError x = false /\ failed w' = true /\
      stdout w' = stdout w /\ committed w' = committed w /\ pending w' = pending w
  end.
Proof.
  unfold ValidationsScript.guarded_commit, try_except, commit.
  destruct (failed w) eqn:Hfailed; [by repeat split|].
  destruct (flush Validations.EmailAddress_class (pending w) (working w)) as [db|x].
  - repeat split. by left.
  - destruct (is_IntegrityError x) eqn:Hx; [|by repeat split].
    unfold bind, print, rollback. simpl. repeat split. by right.
Qed.

(** ** Round trip and the primary key *)






(** ** The hook on concatenations *)

Lemma count_char_app (c : ascii) (s1 s2 : string) :
  count_char c (s1 +:+ s2) = (count_char c s1 + count_char c s2)%nat.
Proof.
  induction s1 as [|c' s1 IH]; [done|].
  rewrite app_String. simpl. rewrite IH. lia.
Qed.

Lemma contains_at_app (s1 s2 : string) :
  contains "@" (s1 +:+ s2) = contains "@" s1 || contains "@" s2.
Proof.
  apply Bool.eq_iff_eq_true. rewrite Bool.orb_true_iff, !contains_count, count_char_app.
  lia.
Qed.

Lemma validations_hook_is_Return (self : EmailAddress) (key s : string) :
  is_Return (Validations.validate_email self key (PyStr s)) = contains "@" s.
Proof. unfold Validations.validate_email. simpl. by destruct (contains "@" s). Qed.

Lemma models_hook_is_Return (self : EmailAddress) (key s : string) :
  is_Return (Models.validate_email self key (PyStr s)) = contains "@" s.
Proof. unfold Models.validate_email. simpl. by destruct (contains "@" s). Qed.

(** X6.  Both hooks accept a concatenation exactly when they accept one of
    its two parts: text added before or after an accepted address never
    makes it rejected, and gluing two rejected strings never yields an
    accepted one. *)
Theorem hook_on_concatenation (self : EmailAddress) (key s1 s2 : string) :
  is_Return (Validations.validate_email self key (PyStr (s1 +:+ s2))) =
    is_Return (Validations.validate_email self key (PyStr s1)) ||
    is_Return (Validations.validate_email self key (PyStr s2)) /\
  is_Return (Models.validate_email self key (PyStr (s1 +:+ s2))) =
    is_Return (Models.validate_email self key (PyStr s1)) ||
    is_Return (Models.validate_email self key (PyStr s2)).
Proof.
  rewrite !validations_hook_is_Return, !models_hook_is_Return.
  split; apply contains_at_app.
Qed.

(** ** The seed script on other databases *)

Lemma seed_main_eq (w : world) (rows : list row) :
  working w !! "emailaddress" = Some rows -> failed w = false -> pending w = [] ->
  Seed.main w =
    (Return tt,
     {| committed := <["emailaddress" := seeded]> (working w);
        working := <["emailaddress" := seeded]> (working w);
        pending := []; failed := false; stdout := stdout w;
        log := log w ++ [CallDelete; CallAddAll 25; CallCommit] |}).
Proof.
  intros Hrows Hfailed Hpending.
  unfold Seed.main. unfold bind at 1. unfold query_delete.
  change (tablename Models.EmailAddress_class) with "emailaddress".
  rewrite Hfailed, Hrows. unfold bind at 1. rewrite seed_loop.
  unfold bind, add_all, commit. cbn [failed pending working committed stdout log].
  rewrite Hpending. cbn [app]. unfold flush.
  change (tablename Models.EmailAddress_class) with "emailaddress".
  rewrite lookup_insert_eq, seed_insert, insert_insert_eq.
  cbn [replicate]. by rewrite <- !app_assoc.
Qed.

Lemma run_seed_eq (db : gmap string (list row)) (rows : list row) :
  db !! "emailaddress" = Some rows ->
  run Seed.main db = <["emailaddress" := seeded]> db.
Proof.
  intros Hrows. unfold run.
  by rewrite (seed_main_eq (fresh db) rows Hrows eq_refl eq_refl).
Qed.

(** X7.  The seed script does not create its table.  On a session whose
    database has no table for the class, the bulk delete of line 16 raises;
    the script stops there: no object is staged, no commit is attempted, and
    storage is as it was. *)
Theorem seed_requires_table (w : world) :
  working w !! "emailaddress" = None -> failed w = false ->
  Seed.main w =
    (Raise (OperationalError "no such table"),
     {| committed := committed w; working := working w; pending := pending w;
        failed := false; stdout := stdout w; log := log w ++ [CallDelete] |}).
Proof.
  intros Hnone Hfailed. unfold Seed.main. unfold bind at 1. unfold query_delete.
  change (tablename Models.EmailAddress_class) with "emailaddress".
  by rewrite Hfailed, Hnone.
Qed.

Lemma seed_requires_table_witness :
  Seed.main (fresh ∅) =
    (Raise (OperationalError "no such table"),
     {| committed := ∅; working := ∅; pending := []; failed := false;
        stdout := []; log := [CallDelete] |}).
Proof.
  apply (seed_requires_table (fresh ∅)).
  - apply lookup_empty.
  - reflexivity.
Defined.

(** X8.  Seeding is idempotent on the database file: when the table exists,
    any positive number of executions of the seed script leaves exactly what
    one execution leaves, the 25 seeded rows with keys 1 to 25, whatever the
    table held before. *)
Theorem seed_runs_idempotent (n : nat) (db : gmap string (list row)) (rows : list row) :
  db !! "emailaddress" = Some rows ->
  run_times (S n) Seed.main db = run Seed.main db /\
  run_times (S n) Seed.main db = <["emailaddress" := seeded]> db /\
  row_id <$> seeded = Z.of_nat <$> seq 1 25.
Proof.
  intros Hrows.
  assert (run_times (S n) Seed.main db = <["emailaddress" := seeded]> db) as Hn.
  { revert db rows Hrows. induction n as [|n IH]; intros db rows Hrows.
    - simpl. by eapply run_seed_eq.
    - change (run_times (S (S n)) Seed.main db)
        with (run_times (S n) Seed.main (run Seed.main db)).
      rewrite (run_seed_eq db rows Hrows).
      rewrite (IH _ seeded) by apply lookup_insert_eq.
      apply insert_insert_eq. }
  split; [|split].
  - by rewrite Hn, (run_seed_eq db rows Hrows).
  - exact Hn.
  - reflexivity.
Qed.

Lemma seed_runs_idempotent_witness :
  run_times 3 Seed.main {[ "emailaddress" := [mkRow 40 (PyStr "old@x") PyNone] ]} =
  run Seed.main {[ "emailaddress" := [mkRow 40 (PyStr "old@x") PyNone] ]}.
Proof.
  refine (proj1 (seed_runs_idempotent 2
                   {[ "emailaddress" := [mkRow 40 (PyStr "old@x") PyNone] ]}
                   [mkRow 40 (PyStr "old@x") PyNone] _)).
  apply lookup_singleton_eq.
Defined.

(** ** The two scripts together *)

(** X9.  The standalone script and the seed script work on different tables
    of the same database file and do not interfere: when the table of the
    seed script exists, running the two scripts in either order leaves the
    same database, each script leaves the other's table as it found it, and
    the row that the standalone script adds does not depend on whether the
    seed script ran before. *)
Theorem scripts_commute (db : gmap string (list row)) (rows : list row) :
  db !! "emailaddress" = Some rows ->
  run ValidationsScript.main (run Seed.main db) =
    run Seed.main (run ValidationsScript.main db) /\
  run ValidationsScript.main db !! "emailaddress" = db !! "emailaddress" /\
  run Seed.main db !! "address" = db !! "address" /\
  run ValidationsScript.main (run Seed.main db) !! "address" =
    run ValidationsScript.main db !! "address".
Proof.
  intros Hrows.
  assert (run ValidationsScript.main db !! "emailaddress" = Some rows) as Hkeep.
  { rewrite run_main_eq, lookup_insert_ne by done. exact Hrows. }
  rewrite (run_seed_eq _ rows Hkeep), (run_seed_eq db rows Hrows).
  rewrite (run_main_eq (<["emailaddress":=seeded]> db)), (run_main_eq db).
  rewrite (lookup_insert_ne db "emailaddress" "address") by done.
  split; [|split; [|split]].
  - by apply insert_insert_ne.
  - by rewrite lookup_insert_ne.
  - done.
  - by rewrite !lookup_insert_eq.
Qed.

Lemma scripts_commute_witness :
  run ValidationsScript.main (run Seed.main {[ "emailaddress" := [] ]}) =
  run Seed.main (run ValidationsScript.main {[ "emailaddress" := [] ]}).
Proof.
  refine (proj1 (scripts_commute {[ "emailaddress" := [] ]} [] _)).
  apply lookup_singleton_eq.
Defined.
